(** * gambitai.ecs.components: the chess game-state components

    A shallow embedding of [src/gambitai/ecs/components.py]: the enums
    [PieceType], [PieceColor] and [GameStatus], the dataclasses
    [Position], [Piece], [Move] and [GameState], and the methods the
    properties below are about.

    Python [int] is [Z] (unbounded), [str] is [string], [list] is [list],
    [dict] is [gmap], [X | None] is [option X].  A method that can raise
    returns a [result]; a method that mutates [self] is a state
    transformer over the record of the instance's fields. *)

From Stdlib Require Import ZArith String Ascii.
From stdpp Require Import base option list gmap strings countable.

Local Open Scope Z_scope.

(** ** Exceptions and fallible computations *)

Inductive exn : Type :=
  | IndexError   (* sequence index out of range *)
  | TypeError.   (* operation not supported between the operands *)

Inductive result (A : Type) : Type :=
  | Ok (a : A)
  | Raise (e : exn).
Arguments Ok {A} a.
Arguments Raise {A} e.

Definition rbind {A B} (r : result A) (k : A -> result B) : result B :=
  match r with
  | Ok a => k a
  | Raise e => Raise e
  end.

Notation "'let!' x ':=' e 'in' k" := (rbind e (fun x => k))
  (at level 10, x name, e at level 100, k at level 200).

(** ** The Python primitives the module relies on *)

Module Py.

(** [seq[i]]: negative indices count from the end, anything outside
    [-len, len) raises [IndexError]. *)
Definition getitem {A} (l : list A) (i : Z) : result A :=
  let n := Z.of_nat (length l) in
  let j := if i <? 0 then i + n else i in
  if (j <? 0) || (n <=? j) then Raise IndexError
  else match l !! Z.to_nat j with
       | Some a => Ok a
       | None => Raise IndexError
       end.

(** [s[i]] on a string: a string of length one. *)
Definition str_getitem (s : string) (i : Z) : result string :=
  let! c := getitem (list_ascii_of_string s) i in
  Ok (String c EmptyString).

Definition is_upper (c : ascii) : bool :=
  let n := nat_of_ascii c in (65 <=? n)%nat && (n <=? 90)%nat.
Definition is_lower (c : ascii) : bool :=
  let n := nat_of_ascii c in (97 <=? n)%nat && (n <=? 122)%nat.
Definition to_lower (c : ascii) : ascii :=
  if is_upper c then ascii_of_nat (nat_of_ascii c + 32) else c.
Definition to_upper (c : ascii) : ascii :=
  if is_lower c then ascii_of_nat (nat_of_ascii c - 32) else c.

(** [s.lower()] on ASCII text. *)
Fixpoint lower (s : string) : string :=
  match s with
  | EmptyString => EmptyString
  | String c s' => String (to_lower c) (lower s')
  end.

(** [s.title()] on ASCII text: a cased character is upper-cased when
    the previous character is not cased, and lower-cased when it is. *)
Fixpoint title_from (prev_cased : bool) (s : string) : string :=
  match s with
  | EmptyString => EmptyString
  | String c s' =>
      if is_lower c || is_upper c
      then String (if prev_cased then to_lower c else to_upper c)
                  (title_from true s')
      else String c (title_from false s')
  end.
Definition title (s : string) : string := title_from false s.

(** Lexicographic comparison of two tuples of ints of the same length. *)
Fixpoint tuple_eqb (a b : list Z) : bool :=
  match a, b with
  | [], [] => true
  | u :: a', v :: b' => (u =? v) && tuple_eqb a' b'
  | _, _ => false
  end.

Fixpoint tuple_ltb (a b : list Z) : bool :=
  match a, b with
  | [], [] => false
  | [], _ :: _ => true
  | _ :: _, [] => false
  | u :: a', v :: b' => if u =? v then tuple_ltb a' b' else u <? v
  end.

Inductive cmp_op : Type := Lt | Le | Gt | Ge.

Definition tuple_cmp (op : cmp_op) (a b : list Z) : bool :=
  match op with
  | Lt => tuple_ltb a b
  | Le => tuple_ltb a b || tuple_eqb a b
  | Gt => tuple_ltb b a
  | Ge => tuple_ltb b a || tuple_eqb a b
  end.

(** The options of the [@dataclass] decorator that decide which
    comparison and hashing methods a class gets. *)
Record dataclass_opts : Type := {
  opt_eq : bool;
  opt_order : bool;
  opt_frozen : bool
}.

(** [@dataclass] with no argument: [eq=True, order=False, frozen=False]. *)
Definition dataclass : dataclass_opts :=
  {| opt_eq := true; opt_order := false; opt_frozen := false |}.

(** [a < b], [a <= b], [a > b], [a >= b] on two instances of one
    dataclass whose fields are the tuples [fa] and [fb]: the methods
    exist only under [order=True]; without them Python raises
    [TypeError]. *)
Definition dataclass_richcmp (o : dataclass_opts) (op : cmp_op)
    (fa fb : list Z) : result bool :=
  if opt_order o then Ok (tuple_cmp op fa fb) else Raise TypeError.

(** [[f(a) for a in l]]: the elements are evaluated in order and the
    first exception ends the comprehension. *)
Fixpoint listcomp {A B} (f : A -> result B) (l : list A) : result (list B) :=
  match l with
  | [] => Ok []
  | a :: l' =>
      let! b := f a in
      let! bs := listcomp f l' in
      Ok (b :: bs)
  end.

(** [sep.join(l)] *)
Fixpoint join (sep : string) (l : list string) : string :=
  match l with
  | [] => ""
  | a :: l' =>
      match l' with
      | [] => a
      | _ :: _ => a +:+ sep +:+ join sep l'
      end
  end.

End Py.

(** ** Enumerations *)

Inductive PieceType : Type := PAWN | KNIGHT | BISHOP | ROOK | QUEEN | KING.
Inductive PieceColor : Type := WHITE | BLACK.
Inductive GameStatus : Type := ACTIVE | CHECK | CHECKMATE | STALEMATE | DRAW.

#[global] Instance PieceType_eq_dec : EqDecision PieceType.
Proof. solve_decision. Defined.
#[global] Instance PieceColor_eq_dec : EqDecision PieceColor.
Proof. solve_decision. Defined.
#[global] Instance GameStatus_eq_dec : EqDecision GameStatus.
Proof. solve_decision. Defined.

(** The member's [name]. *)
Definition PieceType_name (t : PieceType) : string :=
  match t with
  | PAWN => "PAWN" | KNIGHT => "KNIGHT" | BISHOP => "BISHOP"
  | ROOK => "ROOK" | QUEEN => "QUEEN" | KING => "KING"
  end.

(** The member's [value]. *)
Definition PieceColor_value (c : PieceColor) : Z :=
  match c with WHITE => 1 | BLACK => -1 end.

(** [PieceType.__str__]: [self.name.title()]. *)
Definition PieceType_str (t : PieceType) : string :=
  Py.title (PieceType_name t).

Definition PieceColor_name (c : PieceColor) : string :=
  match c with WHITE => "WHITE" | BLACK => "BLACK" end.

(** [PieceColor.__str__]: [self.name.title()]. *)
Definition PieceColor_str (c : PieceColor) : string :=
  Py.title (PieceColor_name c).

Definition GameStatus_name (g : GameStatus) : string :=
  match g with
  | ACTIVE => "ACTIVE" | CHECK => "CHECK" | CHECKMATE => "CHECKMATE"
  | STALEMATE => "STALEMATE" | DRAW => "DRAW"
  end.

Definition GameStatus_value (g : GameStatus) : string :=
  match g with
  | ACTIVE => "active" | CHECK => "check" | CHECKMATE => "checkmate"
  | STALEMATE => "stalemate" | DRAW => "draw"
  end.

(** [GameStatus.__str__]: [self.name.title()]. *)
Definition GameStatus_str (g : GameStatus) : string :=
  Py.title (GameStatus_name g).

#[global] Instance PieceType_countable : Countable PieceType :=
  inj_countable'
    (fun t => match t with
              | PAWN => 1 | KNIGHT => 2 | BISHOP => 3
              | ROOK => 4 | QUEEN => 5 | KING => 6
              end%positive)
    (fun n => match n with
              | 1 => PAWN | 2 => KNIGHT | 3 => BISHOP
              | 4 => ROOK | 5 => QUEEN | _ => KING
              end%positive)
    (fun t => match t with
              | PAWN | KNIGHT | BISHOP | ROOK | QUEEN | KING => eq_refl
              end).

#[global] Instance PieceColor_countable : Countable PieceColor :=
  inj_countable' PieceColor_value
    (fun v => if decide (v = 1) then WHITE else BLACK)
    (fun c => match c with WHITE | BLACK => eq_refl end).

(** ** Position *)

Module Position.

Record t : Type := mk { x : Z; y : Z }.

(** [@dataclass(frozen=True)] *)
Definition opts : Py.dataclass_opts :=
  {| Py.opt_eq := Py.opt_eq Py.dataclass;
     Py.opt_order := Py.opt_order Py.dataclass;
     Py.opt_frozen := true |}.

(** The tuple of fields the generated methods work on. *)
Definition fields (p : t) : list Z := [x p; y p].

(** [__str__] *)
Definition str (self : t) : result string :=
  let files := "abcdefgh"%string in
  let ranks := "87654321"%string in
  let! f := Py.str_getitem files (x self) in
  let! r := Py.str_getitem ranks (y self) in
  Ok (f +:+ r).

(** The generated [__eq__]: [(self.x, self.y) == (other.x, other.y)]. *)
Definition eq (self other : t) : bool :=
  Py.tuple_eqb (fields self) (fields other).

(** The generated [__hash__] ([eq] and [frozen] are both true):
    [hash((self.x, self.y))], for the interpreter's hash of a tuple. *)
Definition hash (hash_tuple : list Z -> Z) (self : t) : Z :=
  hash_tuple (fields self).

(** The ordering operators between two positions. *)
Definition richcmp (op : Py.cmp_op) (self other : t) : result bool :=
  Py.dataclass_richcmp opts op (fields self) (fields other).

End Position.
Abbreviation Position := Position.t.

#[global] Instance Position_eq_dec : EqDecision Position.
Proof. solve_decision. Defined.

#[global] Instance Position_countable : Countable Position :=
  inj_countable' (fun p => (Position.x p, Position.y p))
                 (fun a => Position.mk a.1 a.2)
                 (fun p => match p with Position.mk _ _ => eq_refl end).

(** ** Piece *)

Module Piece.

Record t : Type := mk {
  type : PieceType;
  color : PieceColor;
  has_moved : bool;
  value : Z
}.

(** [Piece(type, color)] with the defaults [has_moved=False, value=1]. *)
Definition new (ty : PieceType) (c : PieceColor) : t :=
  mk ty c false 1.

(** The class-level table [symbols]; each glyph is the UTF-8 encoding of
    its code point. *)
Definition symbols : gmap (PieceType * PieceColor) string :=
  list_to_map
    [ ((PAWN, WHITE), "♙"); ((KNIGHT, WHITE), "♘"); ((BISHOP, WHITE), "♗");
      ((ROOK, WHITE), "♖"); ((QUEEN, WHITE), "♕"); ((KING, WHITE), "♔");
      ((PAWN, BLACK), "♟"); ((KNIGHT, BLACK), "♞"); ((BISHOP, BLACK), "♝");
      ((ROOK, BLACK), "♜"); ((QUEEN, BLACK), "♛"); ((KING, BLACK), "♚")
    ]%string.

(** [__str__]: [self.symbols.get((self.type, self.color), "?")]. *)
Definition str (self : t) : string :=
  default "?"%string (symbols !! (type self, color self)).

(** [to_fen] *)
Definition to_fen (self : t) : string :=
  let symbol :=
    match type self with
    | PAWN => "P" | KNIGHT => "N" | BISHOP => "B"
    | ROOK => "R" | QUEEN => "Q" | KING => "K"
    end%string in
  if decide (color self = WHITE) then symbol else Py.lower symbol.

End Piece.
Abbreviation Piece := Piece.t.

(** ** Moveable *)

Module Moveable.

Record t : Type := mk { valid_moves : list (Z * Z) }.

(** [__str__] *)
Definition str (self : t) : result string :=
  let! moves :=
    Py.listcomp (fun xy => Position.str (Position.mk xy.1 xy.2))
                (valid_moves self) in
  Ok ("Valid moves: " +:+ Py.join ", " moves).

End Moveable.
Abbreviation Moveable := Moveable.t.

(** ** Move *)

Module Move.

Record t : Type := mk {
  from_pos : Position;
  to_pos : Position;
  piece : Piece;
  captured_piece : option Piece;
  is_castling : bool;
  is_en_passant : bool;
  is_promotion : bool;
  promotion_piece : option PieceType
}.

(** [Move(from_pos, to_pos, piece)] with every optional field at its
    default. *)
Definition new (src dst : Position) (p : Piece) : t :=
  mk src dst p None false false false None.

(** [__str__].  A [Piece] and a [PieceType] member are always truthy, so
    [if self.captured_piece] and [and self.promotion_piece] test for
    [None]. *)
Definition str (self : t) : result string :=
  if is_castling self then
    Ok (if Position.x (to_pos self) >? Position.x (from_pos self)
        then "O-O" else "O-O-O")%string
  else
    let! f := Position.str (from_pos self) in
    let! t := Position.str (to_pos self) in
    let move_str := Piece.to_fen (piece self) +:+ f +:+ t in
    let move_str :=
      match captured_piece self with
      | Some c => move_str +:+ "x" +:+ Piece.to_fen c
      | None => move_str
      end in
    let move_str :=
      if is_en_passant self then move_str +:+ "e.p." else move_str in
    let move_str :=
      match is_promotion self, promotion_piece self with
      | true, Some k => move_str +:+ "=" +:+ PieceType_str k
      | _, _ => move_str
      end in
    Ok move_str.

End Move.
Abbreviation Move := Move.t.

(** ** GameState

    The five containers of an instance are separate objects: the
    constructor builds each from its own [default_factory], and their
    element types differ, so a write through one attribute is not seen
    through another. *)

Module GameState.

Record t : Type := mk {
  current_turn : PieceColor;
  status : GameStatus;
  castling_rights : list Z;
  en_passant_target : option Position;
  move_history : list Move;
  halfmove_clock : Z;
  fullmove_number : Z;
  captured_pieces : list Piece;
  check_positions : list Position;
  pieces : gmap Position Piece
}.

(** [GameState()]: every field at its default, each container fresh. *)
Definition new : t :=
  {| current_turn := WHITE;
     status := ACTIVE;
     castling_rights := [1; 1; 1; 1];
     en_passant_target := None;
     move_history := [];
     halfmove_clock := 0;
     fullmove_number := 1;
     captured_pieces := [];
     check_positions := [];
     pieces := ∅ |}.

(** Assignments to the attributes that [add_move] writes. *)
Definition set_current_turn (c : PieceColor) (s : t) : t :=
  mk c (status s) (castling_rights s) (en_passant_target s) (move_history s)
     (halfmove_clock s) (fullmove_number s) (captured_pieces s)
     (check_positions s) (pieces s).
Definition set_move_history (h : list Move) (s : t) : t :=
  mk (current_turn s) (status s) (castling_rights s) (en_passant_target s) h
     (halfmove_clock s) (fullmove_number s) (captured_pieces s)
     (check_positions s) (pieces s).
Definition set_halfmove_clock (n : Z) (s : t) : t :=
  mk (current_turn s) (status s) (castling_rights s) (en_passant_target s)
     (move_history s) n (fullmove_number s) (captured_pieces s)
     (check_positions s) (pieces s).
Definition set_fullmove_number (n : Z) (s : t) : t :=
  mk (current_turn s) (status s) (castling_rights s) (en_passant_target s)
     (move_history s) (halfmove_clock s) n (captured_pieces s)
     (check_positions s) (pieces s).
Definition set_captured_pieces (l : list Piece) (s : t) : t :=
  mk (current_turn s) (status s) (castling_rights s) (en_passant_target s)
     (move_history s) (halfmove_clock s) (fullmove_number s) l
     (check_positions s) (pieces s).

(** A method body: it reads and writes [self] and may raise. *)
Definition method (A : Type) : Type := t -> result (A * t).

Definition ret {A} (a : A) : method A := fun s => Ok (a, s).
Definition bind {A B} (m : method A) (k : A -> method B) : method B :=
  fun s => match m s with
           | Ok (a, s') => k a s'
           | Raise e => Raise e
           end.
Definition read {A} (f : t -> A) : method A := fun s => Ok (f s, s).
Definition write (f : t -> t) : method unit := fun s => Ok (tt, f s).
Definition pass : method unit := ret tt.

Notation "x <- m ;; k" := (bind m (fun x => k))
  (at level 100, m at next level, right associativity).
Notation "m ;; k" := (bind m (fun _ => k))
  (at level 100, right associativity).

(** [add_move] *)
Definition add_move (move : Move) : method unit :=
  (h <- read move_history ;;
   write (set_move_history (h ++ [move]))) ;;

  (if bool_decide (Piece.type (Move.piece move) = PAWN)
      || bool_decide (Move.captured_piece move <> None)
   then write (set_halfmove_clock 0)
   else n <- read halfmove_clock ;;
        write (set_halfmove_clock (n + 1))) ;;

  (if bool_decide (Piece.color (Move.piece move) = BLACK)
   then n <- read fullmove_number ;;
        write (set_fullmove_number (n + 1))
   else pass) ;;

  (match Move.captured_piece move with
   | Some c => l <- read captured_pieces ;;
               write (set_captured_pieces (l ++ [c]))
   | None => pass
   end) ;;

  (c <- read current_turn ;;
   write (set_current_turn
            (if bool_decide (c = WHITE) then BLACK else WHITE))).

(** [get_last_move] *)
Definition get_last_move (self : t) : result (option Move) :=
  match move_history self with
  | [] => Ok None
  | _ :: _ => let! m := Py.getitem (move_history self) (-1) in Ok (Some m)
  end.

(** [is_in_check] *)
Definition is_in_check (self : t) : bool :=
  bool_decide (0 < Z.of_nat (length (check_positions self))).

(** [can_castle] *)
Definition can_castle (self : t) (side : string) : result bool :=
  if String.eqb side "K" then
    let! r := Py.getitem (castling_rights self) 0 in Ok (r =? 1)
  else if String.eqb side "Q" then
    let! r := Py.getitem (castling_rights self) 1 in Ok (r =? 1)
  else if String.eqb side "k" then
    let! r := Py.getitem (castling_rights self) 2 in Ok (r =? 1)
  else if String.eqb side "q" then
    let! r := Py.getitem (castling_rights self) 3 in Ok (r =? 1)
  else Ok false.

(** The state a call leaves behind, and whether the call returned. *)
Definition after {A} (m : method A) (s : t) : option t :=
  match m s with
  | Ok (_, s') => Some s'
  | Raise _ => None
  end.

(** [for move in moves: self.add_move(move)]: the calls a game makes, in
    order. *)
Fixpoint add_moves (moves : list Move) : method unit :=
  match moves with
  | [] => pass
  | move :: rest => add_move move ;; add_moves rest
  end.

End GameState.
Abbreviation GameState := GameState.t.

(** ** The specification's vocabulary

    What the specification says in its own words, to compare the code
    with. *)

Module Spec.

(** The notation letter of a piece: upper case for White, lower case for
    Black. *)
Definition notation_letter (p : Piece) : string :=
  match Piece.color p, Piece.type p with
  | WHITE, PAWN => "P" | WHITE, KNIGHT => "N" | WHITE, BISHOP => "B"
  | WHITE, ROOK => "R" | WHITE, QUEEN => "Q" | WHITE, KING => "K"
  | BLACK, PAWN => "p" | BLACK, KNIGHT => "n" | BLACK, BISHOP => "b"
  | BLACK, ROOK => "r" | BLACK, QUEEN => "q" | BLACK, KING => "k"
  end.

(** The title-cased name of a piece kind. *)
Definition kind_title (k : PieceType) : string :=
  match k with
  | PAWN => "Pawn" | KNIGHT => "Knight" | BISHOP => "Bishop"
  | ROOK => "Rook" | QUEEN => "Queen" | KING => "King"
  end.

Definition opposite (c : PieceColor) : PieceColor :=
  match c with WHITE => BLACK | BLACK => WHITE end.

Definition castling_text (m : Move) : string :=
  if Position.x (Move.to_pos m) >? Position.x (Move.from_pos m)
  then "O-O" else "O-O-O".

Definition capture_marker (m : Move) : string :=
  match Move.captured_piece m with
  | Some c => "x" +:+ notation_letter c
  | None => ""
  end.

Definition en_passant_marker (m : Move) : string :=
  if Move.is_en_passant m then "e.p." else "".

(** Piece letter, source square, destination square and the markers,
    closed by [suffix]; it fails when a square has no algebraic string. *)
Definition render_with (m : Move) (suffix : string) : result string :=
  let! f := Position.str (Move.from_pos m) in
  let! t := Position.str (Move.to_pos m) in
  Ok (notation_letter (Move.piece m) +:+ f +:+ t
      +:+ capture_marker m +:+ en_passant_marker m +:+ suffix).

(** The promotion suffix as the specification words it: whenever the move
    is flagged a promotion, "=" and the title-cased name of the promotion
    kind. *)
Definition promotion_suffix_claimed (m : Move) (suffix : string) : Prop :=
  if Move.is_promotion m
  then exists name : string,
         suffix = "=" +:+ name /\
         forall k, Move.promotion_piece m = Some k -> name = kind_title k
  else suffix = "".

Definition render_claimed (m : Move) (out : result string) : Prop :=
  if Move.is_castling m then out = Ok (castling_text m)
  else exists suffix,
         promotion_suffix_claimed m suffix /\ out = render_with m suffix.

(** The promotion suffix the renderer emits: only for a flagged promotion
    that carries its promotion kind. *)
Definition promotion_suffix (m : Move) : string :=
  match Move.is_promotion m, Move.promotion_piece m with
  | true, Some k => "=" +:+ kind_title k
  | _, _ => ""
  end.

Definition render (m : Move) : result string :=
  if Move.is_castling m then Ok (castling_text m)
  else render_with m (promotion_suffix m).

(** The flag of the castling-rights vector at a position: set when the
    entry is 1. *)
Definition castling_flag (s : GameState) (i : nat) : result bool :=
  match GameState.castling_rights s !! i with
  | Some v => Ok (bool_decide (v = 1))
  | None => Raise IndexError
  end.

Definition known_side (side : string) : Prop :=
  side = "K"%string \/ side = "Q"%string \/
  side = "k"%string \/ side = "q"%string.

(** Coordinates of a board square. *)
Definition on_board (p : Position) : Prop :=
  0 <= Position.x p <= 7 /\ 0 <= Position.y p <= 7.

(** Lexicographic order on pairs. *)
Definition pair_lt (a b : Z * Z) : Prop :=
  a.1 < b.1 \/ (a.1 = b.1 /\ a.2 < b.2).

(** Positions ordered by comparing [(x, y)]: [c1 < c2] evaluates, to the
    lexicographic comparison of the pairs. *)
Definition ordered_by_fields (c1 c2 : Position) : Prop :=
  exists b : bool,
    Position.richcmp Py.Lt c1 c2 = Ok b /\
    (b = true <->
     pair_lt (Position.x c1, Position.y c1) (Position.x c2, Position.y c2)).

(** Whether a character occurs in a string. *)
Fixpoint occurs (c : ascii) (s : string) : bool :=
  match s with
  | EmptyString => false
  | String d s' => bool_decide (c = d) || occurs c s'
  end.

End Spec.

(** ** The values the repository's tests build

    From [tests/test_components.py]. *)

Module Tests.

Definition pawn_move : Move :=
  Move.new (Position.mk 0 1) (Position.mk 0 2) (Piece.new PAWN WHITE).

Definition knight_move : Move :=
  Move.new (Position.mk 1 0) (Position.mk 2 2) (Piece.new KNIGHT BLACK).

Definition capture_move : Move :=
  Move.mk (Position.mk 2 2) (Position.mk 3 3) (Piece.new KNIGHT WHITE)
          (Some (Piece.new PAWN BLACK)) false false false None.

Definition castling_move : Move :=
  Move.mk (Position.mk 4 0) (Position.mk 6 0) (Piece.new KING WHITE)
          None true false false None.

Definition promotion_move : Move :=
  Move.mk (Position.mk 0 1) (Position.mk 0 2) (Piece.new PAWN WHITE)
          None false false true (Some QUEEN).

(** A move flagged a promotion that carries no promotion kind. *)
Definition bare_promotion_move : Move :=
  Move.mk (Position.mk 0 1) (Position.mk 0 2) (Piece.new PAWN WHITE)
          None false false true None.

(** The states of [test_game_state] after each [add_move]. *)
Definition play (moves : list Move) : option GameState :=
  foldl (fun o mv => o ≫= GameState.after (GameState.add_move mv))
        (Some GameState.new) moves.

End Tests.

(** ** Notions the further properties are stated with *)

Module Derived.

(** An index that a sequence of eight items accepts. *)
Definition subscript (i : Z) : Prop := -8 <= i <= 7.

(** Both coordinates can be rendered. *)
Definition renderable (p : Position) : Prop :=
  subscript (Position.x p) /\ subscript (Position.y p).

(** [sub in s] on strings. *)
Definition contains (sub s : string) : Prop :=
  exists pre post : string, s = pre +:+ sub +:+ post.

(** First letter in upper case, the others in lower case. *)
Definition capitalized (s : string) : string :=
  match s with
  | EmptyString => EmptyString
  | String c s' => String (Py.to_upper c) (Py.lower s')
  end.

(** The state after [s.add_move(m)]. *)
Definition step (s : GameState) (m : Move) : GameState :=
  match GameState.after (GameState.add_move m) s with
  | Some s' => s'
  | None => s
  end.

(** The moves that zero the halfmove clock. *)
Definition resets (m : Move) : Prop :=
  Piece.type (Move.piece m) = PAWN \/ is_Some (Move.captured_piece m).

(** The moves of a black piece. *)
Definition by_black (m : Move) : Prop :=
  Piece.color (Move.piece m) = BLACK.

(** How many of the moves are moves of a black piece. *)
Definition black_moves (ms : list Move) : nat :=
  length (List.filter
            (fun m => bool_decide (Piece.color (Move.piece m) = BLACK)) ms).

(** The pieces the moves captured, in order. *)
Definition captures (ms : list Move) : list Piece :=
  omap Move.captured_piece ms.

(** The colours move in turn, [c] first. *)
Fixpoint in_turn (c : PieceColor) (ms : list Move) : Prop :=
  match ms with
  | [] => True
  | m :: ms' =>
      Piece.color (Move.piece m) = c /\ in_turn (Spec.opposite c) ms'
  end.

(** A piece with other [has_moved] and [value] attributes. *)
Definition same_kind (p q : Piece) : Prop :=
  Piece.type p = Piece.type q /\ Piece.color p = Piece.color q.

End Derived.

(** * Properties *)

(** ** [add_move] *)

Section AddMove.

Variables (s : GameState) (m : Move).

(** The call returns, and the state it leaves is the field-wise update. *)
Lemma add_move_run :
  GameState.add_move m s =
  Ok (tt,
      GameState.mk
        (if decide (GameState.current_turn s = WHITE) then BLACK else WHITE)
        (GameState.status s)
        (GameState.castling_rights s)
        (GameState.en_passant_target s)
        (GameState.move_history s ++ [m])
        (if decide (Piece.type (Move.piece m) = PAWN
                    \/ is_Some (Move.captured_piece m))
         then 0 else GameState.halfmove_clock s + 1)
        (if decide (Piece.color (Move.piece m) = BLACK)
         then GameState.fullmove_number s + 1
         else GameState.fullmove_number s)
        (GameState.captured_pieces s
           ++ option_list (Move.captured_piece m))
        (GameState.check_positions s)
        (GameState.pieces s)).
Proof.
  destruct s as [turn st cr ep mh hc fm cp ck ps].
  destruct m as [src dst [ty col hm v] cap cas enp pro pp].
  unfold GameState.add_move, GameState.bind, GameState.read,
    GameState.write, GameState.pass, GameState.ret.
  cbn [Move.piece Move.captured_piece Piece.type Piece.color].
  destruct cap as [c|], ty, col, turn; cbn; rewrite ?app_nil_r;
    repeat case_decide; try reflexivity;
    match goal with
    | H : ¬ (_ \/ _) |- _ => exfalso; apply H; solve [eauto]
    | H : _ \/ is_Some None |- _ =>
        solve [destruct H as [?|[? ?]]; discriminate]
    | _ => congruence
    end.
Qed.

Lemma add_move_after :
  GameState.after (GameState.add_move m) s =
  Some (GameState.mk
        (if decide (GameState.current_turn s = WHITE) then BLACK else WHITE)
        (GameState.status s)
        (GameState.castling_rights s)
        (GameState.en_passant_target s)
        (GameState.move_history s ++ [m])
        (if decide (Piece.type (Move.piece m) = PAWN
                    \/ is_Some (Move.captured_piece m))
         then 0 else GameState.halfmove_clock s + 1)
        (if decide (Piece.color (Move.piece m) = BLACK)
         then GameState.fullmove_number s + 1
         else GameState.fullmove_number s)
        (GameState.captured_pieces s
           ++ option_list (Move.captured_piece m))
        (GameState.check_positions s)
        (GameState.pieces s)).
Proof. unfold GameState.after. now rewrite add_move_run. Qed.

End AddMove.

(** C1.  After [s.add_move(m)] the halfmove clock is 0 when the moved
    piece is a pawn or the move carries a captured piece, and the prior
    clock plus 1 otherwise, whatever the prior clock was. *)
Theorem add_move_halfmove_clock (s : GameState) (m : Move) :
  exists s',
    GameState.after (GameState.add_move m) s = Some s' /\
    GameState.halfmove_clock s' =
      if decide (Piece.type (Move.piece m) = PAWN
                 \/ is_Some (Move.captured_piece m))
      then 0
      else GameState.halfmove_clock s + 1.
Proof. eexists. split; [apply add_move_after | reflexivity]. Qed.

(** C2.  [s.add_move(m)] adds exactly 1 to the fullmove number when the
    moved piece is Black and leaves it alone otherwise, so it grows by 1
    if and only if the piece is Black; a fresh state has fullmove number
    1, still 1 after a White move [mw], and 2 after a Black move [mb]
    that follows. *)
Theorem add_move_fullmove_number (s : GameState) (m : Move) :
  (exists s',
     GameState.after (GameState.add_move m) s = Some s' /\
     GameState.fullmove_number s' =
       (if decide (Piece.color (Move.piece m) = BLACK)
        then GameState.fullmove_number s + 1
        else GameState.fullmove_number s) /\
     (GameState.fullmove_number s' = GameState.fullmove_number s + 1
      <-> Piece.color (Move.piece m) = BLACK)) /\
  GameState.fullmove_number GameState.new = 1 /\
  (forall mw mb : Move,
     Piece.color (Move.piece mw) = WHITE ->
     Piece.color (Move.piece mb) = BLACK ->
     exists s1 s2,
       GameState.after (GameState.add_move mw) GameState.new = Some s1 /\
       GameState.fullmove_number s1 = 1 /\
       GameState.after (GameState.add_move mb) s1 = Some s2 /\
       GameState.fullmove_number s2 = 2).
Proof.
  split; [|split; [reflexivity|]].
  - eexists. split; [apply add_move_after|]. cbn.
    split; [reflexivity|]. case_decide; split; intros; (lia || congruence).
  - intros mw mb Hw Hb. do 2 eexists.
    split; [apply add_move_after|]. cbn. rewrite Hw.
    split; [reflexivity|].
    split; [apply add_move_after|]. cbn. rewrite Hb. reflexivity.
Qed.

Lemma add_move_fullmove_number_witness :
  Piece.color (Move.piece Tests.pawn_move) = WHITE /\
  Piece.color (Move.piece Tests.knight_move) = BLACK /\
  exists s1 s2,
    GameState.after (GameState.add_move Tests.pawn_move) GameState.new
    = Some s1 /\
    GameState.fullmove_number s1 = 1 /\
    GameState.after (GameState.add_move Tests.knight_move) s1 = Some s2 /\
    GameState.fullmove_number s2 = 2.
Proof.
  split; [reflexivity|]. split; [reflexivity|].
  apply (add_move_fullmove_number GameState.new Tests.capture_move);
    reflexivity.
Defined.

(** C3.  After [s.add_move(m)] the colour to move is the opposite of the
    one before the call, for a move of either colour. *)
Theorem add_move_flips_turn (s : GameState) (m : Move) :
  exists s',
    GameState.after (GameState.add_move m) s = Some s' /\
    GameState.current_turn s' = Spec.opposite (GameState.current_turn s) /\
    GameState.current_turn s' <> GameState.current_turn s.
Proof.
  eexists. split; [apply add_move_after|]. cbn.
  case_decide as Hturn; [rewrite Hturn; cbn; split; congruence|].
  destruct (GameState.current_turn s); cbn; split; congruence.
Qed.

(** C4.  [s.add_move(m)] returns normally for every state and move, and
    leaves [pieces], [check_positions], [status], [castling_rights] and
    [en_passant_target] as they were: the state after the call differs
    from [s] at most in the move history, the two counters, the captured
    pieces and the colour to move. *)
Theorem add_move_frame (s : GameState) (m : Move) :
  exists s',
    GameState.add_move m s = Ok (tt, s') /\
    GameState.pieces s' = GameState.pieces s /\
    GameState.check_positions s' = GameState.check_positions s /\
    GameState.status s' = GameState.status s /\
    GameState.castling_rights s' = GameState.castling_rights s /\
    GameState.en_passant_target s' = GameState.en_passant_target s /\
    s' = GameState.set_current_turn (GameState.current_turn s')
           (GameState.set_captured_pieces (GameState.captured_pieces s')
              (GameState.set_fullmove_number (GameState.fullmove_number s')
                 (GameState.set_halfmove_clock (GameState.halfmove_clock s')
                    (GameState.set_move_history (GameState.move_history s')
                       s)))).
Proof. eexists. split; [apply add_move_run|]. repeat split. Qed.

(** C8.  [s.add_move(m)] appends the captured piece, one element, to
    [captured_pieces] when the move carries one and leaves the list as it
    was when it carries none; in the same call [move_history] is extended
    by [m] in every case. *)
Theorem add_move_ledgers (s : GameState) (m : Move) :
  exists s',
    GameState.after (GameState.add_move m) s = Some s' /\
    GameState.move_history s' = GameState.move_history s ++ [m] /\
    match Move.captured_piece m with
    | Some c =>
        GameState.captured_pieces s' = GameState.captured_pieces s ++ [c] /\
        length (GameState.captured_pieces s')
        = S (length (GameState.captured_pieces s))
    | None =>
        GameState.captured_pieces s' = GameState.captured_pieces s /\
        length (GameState.captured_pieces s')
        = length (GameState.captured_pieces s)
    end.
Proof.
  eexists. split; [apply add_move_after|]. cbn.
  split; [reflexivity|].
  destruct (Move.captured_piece m); cbn.
  - rewrite length_app. cbn. split; [reflexivity | lia].
  - rewrite app_nil_r. split; reflexivity.
Qed.

(** ** Strings *)

Lemma append_cons (c : ascii) (a b : string) :
  String c a +:+ b = String c (a +:+ b).
Proof. reflexivity. Qed.

Lemma append_empty_r (a : string) : a +:+ "" = a.
Proof.
  induction a as [|c a IH]; [reflexivity|].
  now rewrite append_cons, IH.
Qed.

Lemma append_chain (a b c : string) : (a +:+ b) +:+ c = a +:+ b +:+ c.
Proof.
  induction a as [|d a IH]; [reflexivity|].
  now rewrite !append_cons, IH.
Qed.

Lemma occurs_append (c : ascii) (a b : string) :
  Spec.occurs c (a +:+ b) = Spec.occurs c a || Spec.occurs c b.
Proof.
  induction a as [|d a IH]; [reflexivity|].
  rewrite append_cons. cbn. now rewrite IH, orb_assoc.
Qed.

(** A non-negative index reads the list position or raises. *)
Lemma getitem_of_nat {A} (l : list A) (n : nat) :
  Py.getitem l (Z.of_nat n) =
  match l !! n with
  | Some a => Ok a
  | None => Raise IndexError
  end.
Proof.
  assert (Hn : (Z.of_nat n <? 0) = false) by (apply Z.ltb_ge; lia).
  unfold Py.getitem. cbv zeta. rewrite Hn, Hn, orb_false_l, Nat2Z.id.
  destruct (Z.leb_spec (Z.of_nat (length l)) (Z.of_nat n)) as [Hge|_];
    [|reflexivity].
  rewrite lookup_ge_None_2 by lia. reflexivity.
Qed.

(** Whatever [getitem] returns is an element of the sequence. *)
Lemma getitem_elem_of {A} (l : list A) (i : Z) (a : A) :
  Py.getitem l i = Ok a -> a ∈ l.
Proof.
  unfold Py.getitem.
  destruct (_ || _); [discriminate|].
  destruct (l !! _) as [b|] eqn:Hb; [|discriminate].
  intros [= <-]. eapply list_elem_of_lookup_2, Hb.
Qed.

Lemma str_getitem_char (t : string) (i : Z) (r : string) :
  Py.str_getitem t i = Ok r ->
  exists c, r = String c "" /\ c ∈ list_ascii_of_string t.
Proof.
  unfold Py.str_getitem.
  destruct (Py.getitem _ i) as [c|] eqn:Hc; cbn; [|discriminate].
  intros [= <-]. exists c. split; [reflexivity|].
  eapply getitem_elem_of, Hc.
Qed.

(** ** Pieces and kinds *)

Lemma to_fen_notation_letter (p : Piece) :
  Piece.to_fen p = Spec.notation_letter p.
Proof. destruct p as [[] [] hm v]; reflexivity. Qed.

Lemma PieceType_str_kind_title (k : PieceType) :
  PieceType_str k = Spec.kind_title k.
Proof. destruct k; reflexivity. Qed.

Lemma notation_letter_no_equals (p : Piece) :
  Spec.occurs "=" (Spec.notation_letter p) = false.
Proof. destruct p as [[] [] hm v]; reflexivity. Qed.

(** ** Position *)

Lemma Position_str_no_equals (p : Position) (t : string) :
  Position.str p = Ok t -> Spec.occurs "=" t = false.
Proof.
  unfold Position.str.
  destruct (Py.str_getitem "abcdefgh" _) as [f|] eqn:Hf; cbn; [|discriminate].
  destruct (Py.str_getitem "87654321" _) as [r|] eqn:Hr; cbn; [|discriminate].
  intros [= <-].
  apply str_getitem_char in Hf as (c & -> & Hc).
  apply str_getitem_char in Hr as (d & -> & Hd).
  cbn in Hc, Hd.
  repeat (apply elem_of_cons in Hc as [->|Hc]);
    [..|now apply elem_of_nil in Hc];
    repeat (apply elem_of_cons in Hd as [->|Hd]);
    solve [reflexivity | now apply elem_of_nil in Hd].
Qed.

(** On the board the two subscripts are in range, and they read the
    characters that [String.get] finds at those indices. *)
Lemma Position_str_in_range (x y : Z) :
  0 <= x <= 7 -> 0 <= y <= 7 ->
  exists cx cy : ascii,
    String.get (Z.to_nat x) "abcdefgh" = Some cx /\
    String.get (Z.to_nat y) "87654321" = Some cy /\
    Position.str (Position.mk x y) = Ok (String cx (String cy "")).
Proof.
  intros Hx Hy.
  assert (Ex : x = 0 \/ x = 1 \/ x = 2 \/ x = 3 \/
               x = 4 \/ x = 5 \/ x = 6 \/ x = 7) by lia.
  assert (Ey : y = 0 \/ y = 1 \/ y = 2 \/ y = 3 \/
               y = 4 \/ y = 5 \/ y = 6 \/ y = 7) by lia.
  clear Hx Hy.
  repeat (destruct Ex as [->|Ex]); try subst x;
    repeat (destruct Ey as [->|Ey]); try subst y;
    do 2 eexists; repeat split.
Qed.

Lemma Position_str_on_board (p : Position) :
  Spec.on_board p -> exists t, Position.str p = Ok t.
Proof.
  destruct p as [x y]. intros [Hx Hy]. cbn in Hx, Hy.
  destruct (Position_str_in_range x y Hx Hy) as (cx & cy & _ & _ & H).
  eauto.
Qed.

(** C7.  For [0 <= x <= 7] and [0 <= y <= 7] the string of
    [Position(x, y)] is the character at index [x] of "abcdefgh" followed
    by the character at index [y] of "87654321"; [(0, 0)] gives "a8" and
    [(7, 7)] gives "h1". *)
Theorem Position_str_algebraic (x y : Z)
    (Hx : 0 <= x <= 7) (Hy : 0 <= y <= 7) :
  (exists cx cy : ascii,
     String.get (Z.to_nat x) "abcdefgh" = Some cx /\
     String.get (Z.to_nat y) "87654321" = Some cy /\
     Position.str (Position.mk x y) = Ok (String cx (String cy ""))) /\
  Position.str (Position.mk 0 0) = Ok "a8"%string /\
  Position.str (Position.mk 7 7) = Ok "h1"%string.
Proof.
  split; [|split; reflexivity].
  now apply Position_str_in_range.
Qed.

Lemma Position_str_algebraic_witness :
  (exists cx cy : ascii,
     String.get (Z.to_nat 4) "abcdefgh" = Some cx /\
     String.get (Z.to_nat 6) "87654321" = Some cy /\
     Position.str (Position.mk 4 6) = Ok (String cx (String cy ""))) /\
  Position.str (Position.mk 0 0) = Ok "a8"%string /\
  Position.str (Position.mk 7 7) = Ok "h1"%string.
Proof.
  apply (Position_str_algebraic 4 6); lia.
Defined.

(** ** Move rendering *)

Lemma Move_str_castling (m : Move) :
  Move.is_castling m = true -> Move.str m = Ok (Spec.castling_text m).
Proof. intros H. unfold Move.str. now rewrite H. Qed.

(** A move that is not castling renders as letter, squares and markers,
    closed by the promotion suffix the renderer emits. *)
Lemma Move_str_plain (m : Move) :
  Move.is_castling m = false ->
  Move.str m = Spec.render_with m (Spec.promotion_suffix m).
Proof.
  intros H. unfold Move.str, Spec.render_with. rewrite H.
  destruct (Position.str (Move.from_pos m)) as [f|]; cbn; [|reflexivity].
  destruct (Position.str (Move.to_pos m)) as [t|]; cbn; [|reflexivity].
  f_equal.
  unfold Spec.capture_marker, Spec.en_passant_marker, Spec.promotion_suffix.
  rewrite to_fen_notation_letter.
  destruct (Move.captured_piece m) as [c|], (Move.is_en_passant m),
    (Move.is_promotion m), (Move.promotion_piece m) as [k|];
    rewrite ?PieceType_str_kind_title, ?to_fen_notation_letter,
      ?append_chain, ?append_empty_r;
    reflexivity.
Qed.

(** The renderer in closed form, for every move: the promotion suffix is
    emitted only for a flagged promotion that carries its promotion
    kind. *)
Lemma Move_str_render (m : Move) : Move.str m = Spec.render m.
Proof.
  unfold Spec.render.
  destruct (Move.is_castling m) eqn:Hc;
    [now apply Move_str_castling | now apply Move_str_plain].
Qed.

(** C5.  For every move that meets the data model's invariant (a move
    flagged a promotion carries its promotion kind), rendering gives: for
    a castling move, "O-O" when the destination file is greater than the
    source file and "O-O-O" otherwise; for any other move, the piece's
    notation letter, the source and destination algebraic strings, "x"
    and the captured piece's letter when a piece was captured, "e.p."
    when en passant, and "=" with the title-cased promotion kind when the
    move is a promotion. *)
Theorem Move_str_claimed (m : Move) :
  (Move.is_promotion m = true -> is_Some (Move.promotion_piece m)) ->
  Spec.render_claimed m (Move.str m).
Proof.
  intros Hinv. unfold Spec.render_claimed.
  destruct (Move.is_castling m) eqn:Hc; [now apply Move_str_castling|].
  exists (Spec.promotion_suffix m). split; [|now apply Move_str_plain].
  unfold Spec.promotion_suffix_claimed, Spec.promotion_suffix.
  destruct (Move.is_promotion m); [|reflexivity].
  destruct Hinv as [k Hk]; [reflexivity|]. rewrite Hk.
  exists (Spec.kind_title k). split; [reflexivity|]. congruence.
Qed.

Lemma Move_str_claimed_witness :
  (Move.is_promotion Tests.promotion_move = true ->
   is_Some (Move.promotion_piece Tests.promotion_move)) /\
  Move.str Tests.promotion_move = Ok "Pa7a6=Queen"%string /\
  Spec.render_claimed Tests.promotion_move (Move.str Tests.promotion_move).
Proof.
  assert (Hinv : Move.is_promotion Tests.promotion_move = true ->
                 is_Some (Move.promotion_piece Tests.promotion_move))
    by (intros _; exists QUEEN; reflexivity).
  split; [exact Hinv|]. split; [reflexivity|].
  apply (Move_str_claimed Tests.promotion_move Hinv).
Defined.

(** The invariant is needed: a move flagged a promotion with no promotion
    kind, which the data model rules out, renders with no "=" in it (the
    pawn move a7-a6 gives "Pa7a6"). *)
Lemma Move_str_claimed_needs_invariant :
  ~ Spec.render_claimed Tests.bare_promotion_move
      (Move.str Tests.bare_promotion_move).
Proof.
  intros (suffix & (name & -> & _) & H).
  vm_compute in H. discriminate H.
Qed.

(** C10.  A move that is not castling, flagged a promotion, with no
    promotion kind renders as letter, squares and markers with nothing
    after them; no "=" occurs in the result; and the call returns whenever
    both squares are on the board. *)
Theorem Move_str_promotion_without_kind (m : Move)
    (Hcastling : Move.is_castling m = false)
    (Hflag : Move.is_promotion m = true)
    (Hkind : Move.promotion_piece m = None) :
  Move.str m = Spec.render_with m "" /\
  (forall out, Move.str m = Ok out -> Spec.occurs "=" out = false) /\
  (Spec.on_board (Move.from_pos m) -> Spec.on_board (Move.to_pos m) ->
   exists out, Move.str m = Ok out).
Proof.
  assert (Hstr : Move.str m = Spec.render_with m "").
  { rewrite Move_str_plain by assumption.
    unfold Spec.promotion_suffix. now rewrite Hflag, Hkind. }
  split; [exact Hstr|]. rewrite Hstr. unfold Spec.render_with. split.
  - intros out.
    destruct (Position.str (Move.from_pos m)) as [f|] eqn:Hf; cbn;
      [|discriminate].
    destruct (Position.str (Move.to_pos m)) as [t|] eqn:Ht; cbn;
      [|discriminate].
    intros [= <-]. rewrite !occurs_append.
    rewrite notation_letter_no_equals.
    rewrite (Position_str_no_equals _ _ Hf), (Position_str_no_equals _ _ Ht).
    unfold Spec.capture_marker, Spec.en_passant_marker.
    destruct (Move.captured_piece m) as [c|], (Move.is_en_passant m);
      rewrite ?occurs_append, ?notation_letter_no_equals; reflexivity.
  - intros Hfrom Hto.
    destruct (Position_str_on_board _ Hfrom) as [f ->].
    destruct (Position_str_on_board _ Hto) as [t ->].
    cbn. eauto.
Qed.

Lemma Move_str_promotion_without_kind_witness :
  Move.is_castling Tests.bare_promotion_move = false /\
  Move.is_promotion Tests.bare_promotion_move = true /\
  Move.promotion_piece Tests.bare_promotion_move = None /\
  Move.str Tests.bare_promotion_move = Ok "Pa7a6"%string /\
  Spec.occurs "=" "Pa7a6" = false.
Proof.
  pose proof (Move_str_promotion_without_kind Tests.bare_promotion_move
                eq_refl eq_refl eq_refl) as (Hstr & Hocc & _).
  do 3 (split; [reflexivity|]).
  split; [exact Hstr | apply Hocc; exact Hstr].
Defined.

(** ** Castling rights *)

Lemma castling_flag_getitem (s : GameState) (i : nat) :
  (let! r := Py.getitem (GameState.castling_rights s) (Z.of_nat i) in
   Ok (r =? 1))
  = Spec.castling_flag s i.
Proof.
  rewrite getitem_of_nat. unfold Spec.castling_flag.
  destruct (GameState.castling_rights s !! i) as [v|]; cbn; [|reflexivity].
  f_equal. destruct (Z.eqb_spec v 1) as [->|Hne].
  - now rewrite bool_decide_eq_true_2.
  - now rewrite bool_decide_eq_false_2.
Qed.

(** With the four entries the constructor gives the vector, the query
    returns for every side code. *)
Lemma can_castle_returns (s : GameState) (side : string) :
  length (GameState.castling_rights s) = 4%nat ->
  exists b, GameState.can_castle s side = Ok b.
Proof.
  intros Hlen. unfold GameState.can_castle.
  destruct (GameState.castling_rights s) as [|a [|b [|c [|d [|e l]]]]];
    try discriminate Hlen.
  repeat (destruct (String.eqb side _); [cbn; eauto|]). eauto.
Qed.

(** C6.  [s.can_castle(side)] is the castling-rights flag (the entry is 1)
    at index 0 for "K", 1 for "Q", 2 for "k" and 3 for "q", and returns
    [False], without raising, for every other string; on a vector of four
    entries it returns for every string. *)
Theorem can_castle_lookup (s : GameState) :
  GameState.can_castle s "K" = Spec.castling_flag s 0 /\
  GameState.can_castle s "Q" = Spec.castling_flag s 1 /\
  GameState.can_castle s "k" = Spec.castling_flag s 2 /\
  GameState.can_castle s "q" = Spec.castling_flag s 3 /\
  (forall side : string,
     ~ Spec.known_side side -> GameState.can_castle s side = Ok false) /\
  (length (GameState.castling_rights s) = 4%nat ->
   forall side : string, exists b, GameState.can_castle s side = Ok b).
Proof.
  split; [|split; [|split; [|split; [|split]]]].
  - apply (castling_flag_getitem s 0).
  - apply (castling_flag_getitem s 1).
  - apply (castling_flag_getitem s 2).
  - apply (castling_flag_getitem s 3).
  - intros side Hside. unfold GameState.can_castle.
    destruct (String.eqb_spec side "K") as [->|_];
      [exfalso; apply Hside; unfold Spec.known_side; tauto|].
    destruct (String.eqb_spec side "Q") as [->|_];
      [exfalso; apply Hside; unfold Spec.known_side; tauto|].
    destruct (String.eqb_spec side "k") as [->|_];
      [exfalso; apply Hside; unfold Spec.known_side; tauto|].
    destruct (String.eqb_spec side "q") as [->|_];
      [exfalso; apply Hside; unfold Spec.known_side; tauto|].
    reflexivity.
  - intros Hlen side. now apply can_castle_returns.
Qed.

Lemma can_castle_lookup_witness :
  ~ Spec.known_side "O-O" /\
  GameState.can_castle GameState.new "O-O" = Ok false.
Proof.
  assert (H : ~ Spec.known_side "O-O")
    by (intros [H|[H|[H|H]]]; discriminate H).
  split; [exact H|].
  apply (can_castle_lookup GameState.new). exact H.
Defined.

(** ** Position as a value *)

Lemma tuple_eqb_pair (a b c d : Z) :
  Py.tuple_eqb [a; b] [c; d] = true <-> a = c /\ b = d.
Proof.
  cbn. rewrite andb_true_r, andb_true_iff, !Z.eqb_eq. reflexivity.
Qed.

Lemma tuple_ltb_pair (a b c d : Z) :
  Py.tuple_ltb [a; b] [c; d] = true <-> Spec.pair_lt (a, b) (c, d).
Proof.
  unfold Spec.pair_lt. cbn.
  destruct (Z.eqb_spec a c) as [->|Hne].
  - destruct (Z.eqb_spec b d) as [->|Hne']; rewrite ?Z.ltb_lt; [lia|].
    split; [intros H; right; split; [reflexivity | exact H] | lia].
  - rewrite Z.ltb_lt. lia.
Qed.

(** Had the class been declared with [order=True], [<] would compare the
    pairs. *)
Lemma richcmp_with_order (o : Py.dataclass_opts) (c1 c2 : Position) :
  Py.opt_order o = true ->
  exists b,
    Py.dataclass_richcmp o Py.Lt (Position.fields c1) (Position.fields c2)
    = Ok b /\
    (b = true <->
     Spec.pair_lt (Position.x c1, Position.y c1)
                  (Position.x c2, Position.y c2)).
Proof.
  intros Ho. unfold Py.dataclass_richcmp. rewrite Ho.
  eexists. split; [reflexivity|]. apply tuple_ltb_pair.
Qed.

(** C9, as the code has it.  Two positions are equal exactly when their
    [x] and their [y] agree, equal positions have equal hashes, and no
    ordering is defined: each of [<], [<=], [>], [>=] between two
    positions raises [TypeError]. *)
Theorem Position_structural (hash_tuple : list Z -> Z) (c1 c2 : Position) :
  (Position.eq c1 c2 = true <->
   Position.x c1 = Position.x c2 /\ Position.y c1 = Position.y c2) /\
  (Position.eq c1 c2 = true <-> c1 = c2) /\
  (Position.eq c1 c2 = true ->
   Position.hash hash_tuple c1 = Position.hash hash_tuple c2) /\
  (forall op, Position.richcmp op c1 c2 = Raise TypeError).
Proof.
  assert (Heq : Position.eq c1 c2 = true <->
                Position.x c1 = Position.x c2 /\
                Position.y c1 = Position.y c2) by apply tuple_eqb_pair.
  split; [exact Heq|]. split; [|split].
  - rewrite Heq. destruct c1, c2; cbn. split; [intros [-> ->]|intros [= -> ->]];
      auto.
  - intros [Hx Hy]%Heq. unfold Position.hash, Position.fields.
    now rewrite Hx, Hy.
  - intros op. reflexivity.
Qed.

Lemma Position_structural_witness :
  Position.eq (Position.mk 4 6) (Position.mk 4 6) = true /\
  Position.hash (fun t => foldr Z.add 0 t) (Position.mk 4 6)
  = Position.hash (fun t => foldr Z.add 0 t) (Position.mk 4 6).
Proof.
  split; [reflexivity|].
  apply (Position_structural (fun t => foldr Z.add 0 t)
           (Position.mk 4 6) (Position.mk 4 6)).
  reflexivity.
Defined.

(** C9, as the specification words it, fails on the ordering: [a8 < b7]
    does not evaluate. *)
Lemma Position_order_counterexample :
  ~ Spec.ordered_by_fields (Position.mk 0 0) (Position.mk 1 1).
Proof. intros (b & H & _). discriminate H. Qed.

(** ** The repository's tests *)

Example test_position :
  Position.str (Position.mk 0 0) = Ok "a8"%string /\
  Position.str (Position.mk 7 7) = Ok "h1"%string.
Proof. split; reflexivity. Qed.

Example test_piece :
  Piece.to_fen (Piece.new PAWN WHITE) = "P"%string /\
  Piece.to_fen (Piece.new QUEEN BLACK) = "q"%string.
Proof. split; reflexivity. Qed.

Example test_move :
  Move.str Tests.castling_move = Ok "O-O"%string /\
  Move.str Tests.promotion_move = Ok "Pa7a6=Queen"%string /\
  Move.str Tests.capture_move = Ok "Nc6d5xp"%string.
Proof. repeat split. Qed.

Example test_game_state :
  (GameState.halfmove_clock <$> Tests.play [Tests.pawn_move]) = Some 0 /\
  (GameState.current_turn <$> Tests.play [Tests.pawn_move]) = Some BLACK /\
  (GameState.fullmove_number <$> Tests.play [Tests.pawn_move]) = Some 1 /\
  (GameState.halfmove_clock
     <$> Tests.play [Tests.pawn_move; Tests.knight_move]) = Some 1 /\
  (GameState.fullmove_number
     <$> Tests.play [Tests.pawn_move; Tests.knight_move]) = Some 2 /\
  ((fun st => (GameState.halfmove_clock st,
               GameState.fullmove_number st,
               length (GameState.captured_pieces st),
               length (GameState.move_history st),
               GameState.current_turn st))
     <$> Tests.play [Tests.pawn_move; Tests.knight_move; Tests.capture_move])
  = Some (0, 2, 1%nat, 3%nat, BLACK) /\
  GameState.can_castle GameState.new "K" = Ok true /\
  GameState.can_castle
    (GameState.mk WHITE ACTIVE [0; 1; 1; 1] None [] 0 1 [] [] ∅) "K"
  = Ok false.
Proof. repeat split. Qed.

(** * Further properties *)

(** ** Subscripts *)

Lemma getitem_in_range {A} (l : list A) (i : Z) :
  - Z.of_nat (length l) <= i < Z.of_nat (length l) ->
  exists a, Py.getitem l i = Ok a.
Proof.
  intros Hi. unfold Py.getitem. cbv zeta.
  set (j := if i <? 0 then i + Z.of_nat (length l) else i).
  assert (Hj : 0 <= j < Z.of_nat (length l)).
  { subst j. destruct (Z.ltb_spec i 0); lia. }
  destruct (Z.ltb_spec j 0) as [?|_]; [lia|].
  destruct (Z.leb_spec (Z.of_nat (length l)) j) as [?|_]; [lia|]. cbn.
  destruct (lookup_lt_is_Some_2 l (Z.to_nat j)) as [a ->]; [lia|]. eauto.
Qed.

Lemma getitem_out_of_range {A} (l : list A) (i : Z) :
  ~ (- Z.of_nat (length l) <= i < Z.of_nat (length l)) ->
  Py.getitem l i = Raise IndexError.
Proof.
  intros Hi. unfold Py.getitem. cbv zeta.
  set (j := if i <? 0 then i + Z.of_nat (length l) else i).
  assert (Hj : j < 0 \/ Z.of_nat (length l) <= j).
  { subst j. destruct (Z.ltb_spec i 0); lia. }
  destruct (Z.ltb_spec j 0) as [?|?]; [reflexivity|].
  destruct (Z.leb_spec (Z.of_nat (length l)) j) as [?|?]; [reflexivity|lia].
Qed.

Lemma getitem_negative {A} (l : list A) (i : Z) :
  - Z.of_nat (length l) <= i < 0 ->
  Py.getitem l i = Py.getitem l (i + Z.of_nat (length l)).
Proof.
  intros Hi.
  assert (Hlt : (i <? 0) = true) by (apply Z.ltb_lt; lia).
  assert (Hge : (i + Z.of_nat (length l) <? 0) = false)
    by (apply Z.ltb_ge; lia).
  unfold Py.getitem. cbv zeta. rewrite Hlt, !Hge. reflexivity.
Qed.

Lemma str_getitem_in_range (t : string) (i : Z) :
  - Z.of_nat (length (list_ascii_of_string t)) <= i
    < Z.of_nat (length (list_ascii_of_string t)) ->
  exists c, Py.str_getitem t i = Ok (String c "").
Proof.
  intros Hi. unfold Py.str_getitem.
  destruct (getitem_in_range _ i Hi) as [c ->]. cbn. eauto.
Qed.

Lemma str_getitem_out_of_range (t : string) (i : Z) :
  ~ (- Z.of_nat (length (list_ascii_of_string t)) <= i
     < Z.of_nat (length (list_ascii_of_string t))) ->
  Py.str_getitem t i = Raise IndexError.
Proof.
  intros Hi. unfold Py.str_getitem.
  now rewrite (getitem_out_of_range _ i Hi).
Qed.

(** ** Position rendering at and beyond the edge of the board *)

Lemma Position_str_renderable (p : Position) :
  Derived.renderable p ->
  exists c d, Position.str p = Ok (String c (String d "")).
Proof.
  intros [Hx Hy]. unfold Derived.subscript in Hx, Hy. unfold Position.str.
  destruct (str_getitem_in_range "abcdefgh" (Position.x p)) as [c ->];
    [cbn; lia|].
  destruct (str_getitem_in_range "87654321" (Position.y p)) as [d ->];
    [cbn; lia|].
  cbn. eauto.
Qed.

Lemma Position_str_not_renderable (p : Position) :
  ~ Derived.renderable p -> Position.str p = Raise IndexError.
Proof.
  intros Hp. unfold Position.str.
  destruct (decide (Derived.subscript (Position.x p))) as [Hx|Hx].
  - destruct (str_getitem_in_range "abcdefgh" (Position.x p)) as [c ->];
      [unfold Derived.subscript in Hx; cbn; lia|].
    rewrite (str_getitem_out_of_range "87654321" (Position.y p)).
    + reflexivity.
    + cbn. intros Hy. apply Hp. split; [exact Hx|].
      unfold Derived.subscript. lia.
  - rewrite (str_getitem_out_of_range "abcdefgh" (Position.x p));
      [reflexivity|].
    cbn. intros H. apply Hx. unfold Derived.subscript. lia.
Qed.

Lemma Position_str_returns_renderable (p : Position) :
  (exists t, Position.str p = Ok t) <-> Derived.renderable p.
Proof.
  split.
  - intros [t Ht]. destruct (decide (Derived.renderable p)) as [Hp|Hp];
      [exact Hp|].
    rewrite (Position_str_not_renderable p Hp) in Ht. discriminate Ht.
  - intros Hp. destruct (Position_str_renderable p Hp) as (c & d & H). eauto.
Qed.

(** X1.  [str(Position(x, y))] returns exactly when both coordinates lie
    in [-8, 7], and then gives a string of two characters; for any other
    coordinates it raises [IndexError]. *)
Theorem Position_str_returns_iff (p : Position) :
  ((exists t, Position.str p = Ok t) <-> Derived.renderable p) /\
  (Position.str p = Raise IndexError <-> ~ Derived.renderable p) /\
  (forall t, Position.str p = Ok t -> String.length t = 2%nat).
Proof.
  destruct (decide (Derived.renderable p)) as [Hp|Hp].
  - destruct (Position_str_renderable p Hp) as (c & d & Hstr).
    rewrite Hstr. split; [|split].
    + split; eauto.
    + split; [discriminate | intros Hn; contradiction].
    + intros t [= <-]. reflexivity.
  - rewrite (Position_str_not_renderable p Hp). split; [|split].
    + split; [intros [t Ht]; discriminate Ht | intros Hn; contradiction].
    + split; auto.
    + intros t Ht. discriminate Ht.
Qed.

(** X2.  A negative coordinate counts from the far edge of the board:
    for [-8 <= x < 0] the position prints like the one with [x + 8], and
    the same holds for [y]. *)
Theorem Position_str_wraps (x y : Z) :
  (-8 <= x < 0 ->
   Position.str (Position.mk x y) = Position.str (Position.mk (x + 8) y)) /\
  (-8 <= y < 0 ->
   Position.str (Position.mk x y) = Position.str (Position.mk x (y + 8))).
Proof.
  unfold Position.str, Py.str_getitem. cbn [Position.x Position.y].
  split; intros H.
  - rewrite (getitem_negative (list_ascii_of_string "abcdefgh") x)
      by (cbn; lia).
    reflexivity.
  - rewrite (getitem_negative (list_ascii_of_string "87654321") y)
      by (cbn; lia).
    reflexivity.
Qed.

Lemma Position_str_wraps_witness :
  -8 <= -1 < 0 /\
  Position.str (Position.mk (-1) 7) = Position.str (Position.mk (-1 + 8) 7).
Proof.
  split; [lia|].
  apply (Position_str_wraps (-1) 7). lia.
Defined.

Lemma octet_cases (i : Z) :
  0 <= i <= 7 ->
  i = 0 \/ i = 1 \/ i = 2 \/ i = 3 \/ i = 4 \/ i = 5 \/ i = 6 \/ i = 7.
Proof. lia. Qed.

Lemma get_inj (t : string) (i j : Z) :
  t = "abcdefgh"%string \/ t = "87654321"%string ->
  0 <= i <= 7 -> 0 <= j <= 7 ->
  String.get (Z.to_nat i) t = String.get (Z.to_nat j) t -> i = j.
Proof.
  intros Ht Hi%octet_cases Hj%octet_cases.
  destruct Ht as [-> | ->];
    repeat (destruct Hi as [->|Hi]); try subst i;
    repeat (destruct Hj as [->|Hj]); try subst j;
    cbn; intros H; solve [reflexivity | discriminate H].
Qed.

(** X3.  On the board the rendering is one to one: two positions with
    coordinates in [0, 7] that print the same are the same position. *)
Theorem Position_str_injective (p q : Position) :
  Spec.on_board p -> Spec.on_board q ->
  Position.str p = Position.str q -> p = q.
Proof.
  destruct p as [x y], q as [x' y']. intros [Hx Hy] [Hx' Hy'] Heq.
  cbn in Hx, Hy, Hx', Hy'.
  destruct (Position_str_in_range x y Hx Hy) as (c & d & Hc & Hd & Hp).
  destruct (Position_str_in_range x' y' Hx' Hy') as (c' & d' & Hc' & Hd' & Hq).
  rewrite Hp, Hq in Heq. injection Heq as -> ->.
  f_equal.
  - apply (get_inj "abcdefgh"); auto. congruence.
  - apply (get_inj "87654321"); auto. congruence.
Qed.

Lemma Position_str_injective_witness :
  Spec.on_board (Position.mk 4 6) /\
  Position.mk 4 6 = Position.mk 4 6.
Proof.
  assert (H : Spec.on_board (Position.mk 4 6)) by (split; cbn; lia).
  split; [exact H|].
  apply (Position_str_injective (Position.mk 4 6) (Position.mk 4 6) H H).
  reflexivity.
Defined.

(** ** Piece rendering *)

(** X4.  [str(piece)] never falls back to "?": the table [symbols] has an
    entry for every kind and colour. *)
Theorem Piece_str_in_table (p : Piece) :
  Piece.symbols !! (Piece.type p, Piece.color p) = Some (Piece.str p) /\
  Piece.str p <> "?"%string.
Proof.
  destruct p as [[] [] hm v]; split; vm_compute; congruence.
Qed.

(** X5.  The glyphs tell the twelve pieces apart and nothing else: two
    pieces print the same exactly when they have the same kind and
    colour, whatever their [has_moved] and [value]. *)
Theorem Piece_str_injective (p q : Piece) :
  Piece.str p = Piece.str q <-> Derived.same_kind p q.
Proof.
  unfold Derived.same_kind.
  destruct p as [[] [] hm v], q as [[] [] hm' v']; cbn [Piece.type Piece.color];
    (split; [vm_compute; intros H; first [discriminate H | split; reflexivity]
            | intros [H1 H2]; first [discriminate H1 | discriminate H2
                                    | reflexivity]]).
Qed.

(** X6.  The FEN letters tell the twelve pieces apart too: [to_fen] gives
    the same letter exactly for pieces of the same kind and colour. *)
Theorem to_fen_injective (p q : Piece) :
  Piece.to_fen p = Piece.to_fen q <-> Derived.same_kind p q.
Proof.
  unfold Derived.same_kind.
  destruct p as [[] [] hm v], q as [[] [] hm' v']; cbn [Piece.type Piece.color];
    (split; [vm_compute; intros H; first [discriminate H | split; reflexivity]
            | intros [H1 H2]; first [discriminate H1 | discriminate H2
                                    | reflexivity]]).
Qed.

(** X7.  [to_fen] gives one character, an upper-case letter for a white
    piece and a lower-case letter for a black one, and the black letter
    is the lower-cased white letter of the same kind. *)
Theorem to_fen_case (p : Piece) :
  exists c : ascii,
    Piece.to_fen p = String c "" /\
    Py.is_upper c = bool_decide (Piece.color p = WHITE) /\
    Py.is_lower c = bool_decide (Piece.color p = BLACK) /\
    Py.lower (Piece.to_fen (Piece.mk (Piece.type p) WHITE
                              (Piece.has_moved p) (Piece.value p)))
    = Piece.to_fen (Piece.mk (Piece.type p) BLACK
                      (Piece.has_moved p) (Piece.value p)).
Proof.
  destruct p as [[] [] hm v]; eexists; repeat split.
Qed.

(** ** Enumerations *)

(** X8.  [str] of a member of any of the three enumerations is its name
    with the first letter in upper case and the others in lower case, and
    [str] of a game status, lower-cased, is the member's value. *)
Theorem enum_str_capitalized :
  (forall t, PieceType_str t = Derived.capitalized (PieceType_name t)) /\
  (forall c, PieceColor_str c = Derived.capitalized (PieceColor_name c)) /\
  (forall g, GameStatus_str g = Derived.capitalized (GameStatus_name g)) /\
  (forall g, Py.lower (GameStatus_str g) = GameStatus_value g).
Proof.
  repeat split; intros []; reflexivity.
Qed.

(** ** Moveable rendering *)

Lemma listcomp_returns {A B} (f : A -> result B) (l : list A) :
  Forall (fun a => exists b, f a = Ok b) l ->
  exists bs, Py.listcomp f l = Ok bs /\ Forall2 (fun a b => f a = Ok b) l bs.
Proof.
  induction 1 as [|a l [b Hb] _ (bs & Hbs & HF)]; cbn.
  - exists []. split; [reflexivity | constructor].
  - rewrite Hb. cbn. rewrite Hbs. cbn.
    exists (b :: bs). split; [reflexivity | now constructor].
Qed.

Lemma listcomp_inv {A B} (f : A -> result B) (l : list A) (bs : list B) :
  Py.listcomp f l = Ok bs -> Forall2 (fun a b => f a = Ok b) l bs.
Proof.
  revert bs. induction l as [|a l IH]; cbn; intros bs.
  - intros [= <-]. constructor.
  - destruct (f a) as [b|] eqn:Hb; cbn; [|discriminate].
    destruct (Py.listcomp f l) as [bs'|]; cbn; [|discriminate].
    intros [= <-]. constructor; [exact Hb | now apply IH].
Qed.

Lemma listcomp_elements {A B} (f : A -> result B) (l : list A)
    (bs : list B) :
  Forall2 (fun a b => f a = Ok b) l bs ->
  Forall (fun a => exists b, f a = Ok b) l.
Proof.
  induction 1 as [|a b l bs' H _ IH]; constructor; [exists b; exact H|].
  exact IH.
Qed.

Lemma listcomp_raises {A B} (f : A -> result B) (l : list A) (e : exn) :
  (forall a e', f a = Raise e' -> e' = e) ->
  ~ Forall (fun a => exists b, f a = Ok b) l ->
  Py.listcomp f l = Raise e.
Proof.
  intros Hf. induction l as [|a l IH]; intros Hl.
  - exfalso. apply Hl. constructor.
  - cbn. destruct (f a) as [b|e'] eqn:Hb; cbn.
    + rewrite IH; [reflexivity|].
      intros HF. apply Hl. constructor; eauto.
    + now rewrite (Hf a e' Hb).
Qed.

Lemma contains_refl (t : string) : Derived.contains t t.
Proof. exists ""%string, ""%string. now rewrite append_empty_r. Qed.

Lemma contains_prepend (pre sub t : string) :
  Derived.contains sub t -> Derived.contains sub (pre +:+ t).
Proof.
  intros (a & b & ->). exists (pre +:+ a), b. now rewrite append_chain.
Qed.

Lemma contains_append (sub t post : string) :
  Derived.contains sub t -> Derived.contains sub (t +:+ post).
Proof.
  intros (a & b & ->). exists a, (b +:+ post).
  now rewrite !append_chain.
Qed.

Lemma join_contains (sep a : string) (l : list string) :
  a ∈ l -> Derived.contains a (Py.join sep l).
Proof.
  induction l as [|b l IH]; intros Ha; [now apply elem_of_nil in Ha|].
  cbn. destruct l as [|c l].
  - apply list_elem_of_singleton in Ha as ->. apply contains_refl.
  - apply elem_of_cons in Ha as [->|Ha].
    + apply contains_append, contains_refl.
    + apply contains_prepend, contains_prepend, IH, Ha.
Qed.

Lemma Position_str_raises_only_IndexError (p : Position) (e : exn) :
  Position.str p = Raise e -> e = IndexError.
Proof.
  intros Hp. destruct (decide (Derived.renderable p)) as [Hr|Hr].
  - destruct (Position_str_renderable p Hr) as (c & d & H). congruence.
  - rewrite (Position_str_not_renderable p Hr) in Hp. congruence.
Qed.

(** X9.  [str(moveable)] returns exactly when every listed pair has both
    coordinates in [-8, 7], and raises [IndexError] as soon as one pair
    has not; with no move listed it is "Valid moves: " and nothing
    else. *)
Theorem Moveable_str_returns_iff (mv : Moveable) :
  ((exists out, Moveable.str mv = Ok out) <->
   Forall (fun xy => Derived.renderable (Position.mk xy.1 xy.2))
          (Moveable.valid_moves mv)) /\
  (Moveable.str mv = Raise IndexError <->
   ~ Forall (fun xy => Derived.renderable (Position.mk xy.1 xy.2))
            (Moveable.valid_moves mv)) /\
  (Moveable.valid_moves mv = [] ->
   Moveable.str mv = Ok "Valid moves: "%string).
Proof.
  set (f := fun xy : Z * Z => Position.str (Position.mk xy.1 xy.2)).
  assert (Hnil : Moveable.valid_moves mv = [] ->
                 Moveable.str mv = Ok "Valid moves: "%string).
  { destruct mv as [l]. cbn. intros ->. reflexivity. }
  assert (Hiff : Forall (fun xy => exists t, f xy = Ok t)
                        (Moveable.valid_moves mv) <->
                 Forall (fun xy => Derived.renderable
                                     (Position.mk xy.1 xy.2))
                        (Moveable.valid_moves mv)).
  { apply Forall_iff. intros xy.
    apply (Position_str_returns_renderable (Position.mk xy.1 xy.2)). }
  split; [|split; [|exact Hnil]]; clear Hnil; unfold Moveable.str; fold f.
  - split.
    + intros [out Hout]. apply Hiff.
      destruct (Py.listcomp f (Moveable.valid_moves mv)) as [bs|] eqn:Hbs;
        [|discriminate Hout].
      apply listcomp_inv in Hbs.
      eapply listcomp_elements, Hbs.
    + intros Hall.
      destruct (listcomp_returns f (Moveable.valid_moves mv))
        as (bs & -> & _); [now apply Hiff|].
      cbn. eauto.
  - split.
    + intros Hraise Hall.
      destruct (listcomp_returns f (Moveable.valid_moves mv))
        as (bs & Hbs & _); [now apply Hiff|].
      rewrite Hbs in Hraise. discriminate Hraise.
    + intros Hnot. rewrite (listcomp_raises f _ IndexError).
      * reflexivity.
      * intros xy e. apply Position_str_raises_only_IndexError.
      * intros H. apply Hnot, Hiff, H.
Qed.

Lemma Moveable_str_returns_iff_witness :
  Moveable.valid_moves (Moveable.mk []) = [] /\
  Moveable.str (Moveable.mk []) = Ok "Valid moves: "%string.
Proof.
  split; [reflexivity|].
  apply (Moveable_str_returns_iff (Moveable.mk [])). reflexivity.
Defined.

Lemma Forall2_elem_of_l {A B} (R : A -> B -> Prop) (l : list A)
    (k : list B) (a : A) :
  Forall2 R l k -> a ∈ l -> exists b, b ∈ k /\ R a b.
Proof.
  induction 1 as [|a' b l k H _ IH]; intros Ha.
  - now apply elem_of_nil in Ha.
  - apply elem_of_cons in Ha as [->|Ha].
    + exists b. split; [apply list_elem_of_here | exact H].
    + destruct (IH Ha) as (b' & Hb' & HR).
      exists b'. split; [now apply list_elem_of_further | exact HR].
Qed.

(** X10.  When [str(moveable)] returns, the algebraic name of every
    listed move occurs in the result. *)
Theorem Moveable_str_contains (mv : Moveable) (out : string) (x y : Z) :
  Moveable.str mv = Ok out ->
  (x, y) ∈ Moveable.valid_moves mv ->
  exists sq,
    Position.str (Position.mk x y) = Ok sq /\ Derived.contains sq out.
Proof.
  unfold Moveable.str. intros Hout Hin.
  destruct (Py.listcomp _ (Moveable.valid_moves mv)) as [bs|] eqn:Hbs;
    [|discriminate Hout].
  cbn in Hout. injection Hout as <-.
  apply listcomp_inv in Hbs.
  destruct (Forall2_elem_of_l _ _ _ _ Hbs Hin) as (sq & Hsq & Hstr).
  exists sq. split; [exact Hstr|].
  apply contains_prepend, join_contains, Hsq.
Qed.

Lemma Moveable_str_contains_witness :
  exists sq,
    Position.str (Position.mk 1 1) = Ok sq /\
    Derived.contains sq "Valid moves: a8, b7".
Proof.
  apply (Moveable_str_contains (Moveable.mk [(0, 0); (1, 1)])
           "Valid moves: a8, b7" 1 1).
  - reflexivity.
  - apply list_elem_of_further, list_elem_of_here.
Defined.

(** ** Move rendering: failures, castling, and what is ignored *)

Lemma render_with_returns (m : Move) (suffix : string) :
  Derived.renderable (Move.from_pos m) ->
  Derived.renderable (Move.to_pos m) ->
  exists f t,
    Position.str (Move.from_pos m) = Ok f /\
    Position.str (Move.to_pos m) = Ok t /\
    Spec.render_with m suffix =
    Ok (Spec.notation_letter (Move.piece m) +:+ f +:+ t
        +:+ Spec.capture_marker m +:+ Spec.en_passant_marker m +:+ suffix).
Proof.
  intros Hf Ht. unfold Spec.render_with.
  destruct (Position_str_renderable _ Hf) as (c & d & ->).
  destruct (Position_str_renderable _ Ht) as (c' & d' & ->).
  cbn. eauto.
Qed.

Lemma render_with_raises (m : Move) (suffix : string) :
  ~ (Derived.renderable (Move.from_pos m) /\
     Derived.renderable (Move.to_pos m)) ->
  Spec.render_with m suffix = Raise IndexError.
Proof.
  intros Hn. unfold Spec.render_with.
  destruct (decide (Derived.renderable (Move.from_pos m))) as [Hf|Hf].
  - destruct (Position_str_renderable _ Hf) as (c & d & ->). cbn.
    rewrite Position_str_not_renderable; [reflexivity|]. tauto.
  - now rewrite Position_str_not_renderable.
Qed.

(** X11.  [str(move)] raises only [IndexError], and exactly for a move
    that is not castling with a coordinate of its source or destination
    outside [-8, 7]; a castling move renders whatever its squares are. *)
Theorem Move_str_raises_iff (m : Move) :
  (Move.str m = Raise IndexError <->
   Move.is_castling m = false /\
   ~ (Derived.renderable (Move.from_pos m) /\
      Derived.renderable (Move.to_pos m))) /\
  ((exists out, Move.str m = Ok out) <->
   Move.is_castling m = true \/
   (Derived.renderable (Move.from_pos m) /\
    Derived.renderable (Move.to_pos m))) /\
  (forall e, Move.str m = Raise e -> e = IndexError).
Proof.
  destruct (Move.is_castling m) eqn:Hc.
  - rewrite (Move_str_castling m Hc). split; [|split].
    + split; [discriminate | intros [H _]; discriminate H].
    + split; eauto.
    + intros e H. discriminate H.
  - rewrite (Move_str_plain m Hc).
    destruct (decide (Derived.renderable (Move.from_pos m) /\
                      Derived.renderable (Move.to_pos m))) as [[Hf Ht]|Hn].
    + destruct (render_with_returns m (Spec.promotion_suffix m) Hf Ht)
        as (f & t & _ & _ & ->).
      split; [|split].
      * split; [discriminate | intros [_ H]; tauto].
      * split; eauto.
      * intros e H. discriminate H.
    + rewrite (render_with_raises m _ Hn). split; [|split].
      * split; auto.
      * split; [intros [out H]; discriminate H|].
        intros [H|H]; [discriminate H | contradiction].
      * intros e [= <-]. reflexivity.
Qed.

Lemma notation_letter_head (p : Piece) :
  exists c : ascii,
    Spec.notation_letter p = String c "" /\ c <> "O"%char.
Proof.
  destruct p as [[] [] hm v]; eexists; (split; [reflexivity | discriminate]).
Qed.

(** X12.  The two castling strings are not the rendering of any other
    move: a castling move renders as "O-O" or "O-O-O", and a move that is
    not castling never does. *)
Theorem Move_str_castling_unambiguous (m : Move) :
  (Move.is_castling m = true ->
   Move.str m = Ok "O-O"%string \/ Move.str m = Ok "O-O-O"%string) /\
  (Move.is_castling m = false ->
   Move.str m <> Ok "O-O"%string /\ Move.str m <> Ok "O-O-O"%string).
Proof.
  split; intros Hc.
  - rewrite (Move_str_castling m Hc). unfold Spec.castling_text.
    destruct (_ >? _); auto.
  - rewrite (Move_str_plain m Hc). unfold Spec.render_with.
    destruct (Position.str (Move.from_pos m)) as [f|]; cbn;
      [|split; discriminate].
    destruct (Position.str (Move.to_pos m)) as [t|]; cbn;
      [|split; discriminate].
    destruct (notation_letter_head (Move.piece m)) as (c & -> & Hne).
    rewrite append_cons.
    split; intros [= Hhead _]; contradiction.
Qed.

Lemma Move_str_castling_unambiguous_witness :
  Move.is_castling Tests.castling_move = true /\
  Move.is_castling Tests.capture_move = false /\
  (Move.str Tests.castling_move = Ok "O-O"%string \/
   Move.str Tests.castling_move = Ok "O-O-O"%string) /\
  Move.str Tests.capture_move <> Ok "O-O"%string.
Proof.
  split; [reflexivity|]. split; [reflexivity|]. split.
  - apply (Move_str_castling_unambiguous Tests.castling_move). reflexivity.
  - apply (Move_str_castling_unambiguous Tests.capture_move). reflexivity.
Defined.

Lemma same_kind_letter (p q : Piece) :
  Derived.same_kind p q -> Spec.notation_letter p = Spec.notation_letter q.
Proof.
  destruct p as [ty col hm v], q as [ty' col' hm' v'].
  intros [Hty Hcol]. cbn in Hty, Hcol. now subst.
Qed.

(** X13.  The rendering of a move reads the pieces only through their
    kind and colour: changing [has_moved] or [value] of the moved piece or
    of the captured piece leaves [str(move)] as it was. *)
Theorem Move_str_same_kind (m : Move) (p c : Piece) :
  Derived.same_kind p (Move.piece m) ->
  (forall c0, Move.captured_piece m = Some c0 -> Derived.same_kind c c0) ->
  Move.str
    (Move.mk (Move.from_pos m) (Move.to_pos m) p
       (match Move.captured_piece m with Some _ => Some c | None => None end)
       (Move.is_castling m) (Move.is_en_passant m)
       (Move.is_promotion m) (Move.promotion_piece m))
  = Move.str m.
Proof.
  intros Hp Hc.
  destruct (Move.is_castling m) eqn:Hcas.
  { rewrite (Move_str_castling m Hcas).
    now rewrite Move_str_castling by reflexivity. }
  rewrite (Move_str_plain m Hcas).
  rewrite Move_str_plain by reflexivity.
  unfold Spec.render_with, Spec.capture_marker, Spec.en_passant_marker,
    Spec.promotion_suffix.
  cbn [Move.from_pos Move.to_pos Move.piece Move.captured_piece
       Move.is_en_passant Move.is_promotion Move.promotion_piece].
  rewrite (same_kind_letter _ _ Hp).
  destruct (Move.captured_piece m) as [c0|]; [|reflexivity].
  now rewrite (same_kind_letter _ _ (Hc c0 eq_refl)).
Qed.

Lemma Move_str_same_kind_witness :
  Derived.same_kind (Piece.mk KNIGHT WHITE true 3)
    (Move.piece Tests.capture_move) /\
  Move.str
    (Move.mk (Position.mk 2 2) (Position.mk 3 3)
       (Piece.mk KNIGHT WHITE true 3) (Some (Piece.mk PAWN BLACK true 1))
       false false false None)
  = Move.str Tests.capture_move.
Proof.
  assert (H : Derived.same_kind (Piece.mk KNIGHT WHITE true 3)
                (Move.piece Tests.capture_move)) by (split; reflexivity).
  split; [exact H|].
  apply (Move_str_same_kind Tests.capture_move
           (Piece.mk KNIGHT WHITE true 3) (Piece.mk PAWN BLACK true 1) H).
  intros c0 [= <-]. split; reflexivity.
Defined.

(** ** Sequences of moves *)

Lemma step_unfold (s : GameState) (m : Move) :
  Derived.step s m =
  GameState.mk
    (if decide (GameState.current_turn s = WHITE) then BLACK else WHITE)
    (GameState.status s)
    (GameState.castling_rights s)
    (GameState.en_passant_target s)
    (GameState.move_history s ++ [m])
    (if decide (Piece.type (Move.piece m) = PAWN
                \/ is_Some (Move.captured_piece m))
     then 0 else GameState.halfmove_clock s + 1)
    (if decide (Piece.color (Move.piece m) = BLACK)
     then GameState.fullmove_number s + 1
     else GameState.fullmove_number s)
    (GameState.captured_pieces s ++ option_list (Move.captured_piece m))
    (GameState.check_positions s)
    (GameState.pieces s).
Proof. unfold Derived.step. now rewrite add_move_after. Qed.

Lemma add_moves_cons (m : Move) (ms : list Move) (s : GameState) :
  GameState.add_moves (m :: ms) s = GameState.add_moves ms (Derived.step s m).
Proof.
  cbn [GameState.add_moves]. unfold GameState.bind.
  rewrite add_move_run, step_unfold. reflexivity.
Qed.

(** The calls all return, and leave the state of the last one. *)
Lemma add_moves_run (ms : list Move) (s : GameState) :
  GameState.add_moves ms s = Ok (tt, foldl Derived.step s ms).
Proof.
  revert s. induction ms as [|m ms IH]; intros s; [reflexivity|].
  rewrite add_moves_cons, IH. reflexivity.
Qed.

Lemma add_moves_after (ms : list Move) (s : GameState) :
  GameState.after (GameState.add_moves ms) s = Some (foldl Derived.step s ms).
Proof. unfold GameState.after. now rewrite add_moves_run. Qed.

Lemma steps_snoc (ms : list Move) (m : Move) (s : GameState) :
  foldl Derived.step s (ms ++ [m]) = Derived.step (foldl Derived.step s ms) m.
Proof. now rewrite foldl_app. Qed.

Lemma getitem_last {A} (l : list A) (a : A) :
  Py.getitem (l ++ [a]) (-1) = Ok a.
Proof.
  unfold Py.getitem. cbv zeta. rewrite length_app. cbn [length].
  replace (-1 <? 0) with true by reflexivity. cbv iota.
  replace (-1 + Z.of_nat (length l + 1)) with (Z.of_nat (length l)) by lia.
  destruct (Z.ltb_spec (Z.of_nat (length l)) 0) as [?|_]; [lia|].
  destruct (Z.leb_spec (Z.of_nat (length l + 1)) (Z.of_nat (length l)))
    as [?|_]; [lia|].
  cbn. rewrite Nat2Z.id, list_lookup_middle by reflexivity. reflexivity.
Qed.

Lemma get_last_move_snoc (s : GameState) (h : list Move) (m : Move) :
  GameState.move_history s = h ++ [m] ->
  GameState.get_last_move s = Ok (Some m).
Proof.
  intros Hh. unfold GameState.get_last_move. rewrite Hh.
  destruct (h ++ [m]) eqn:E; [now destruct h|].
  rewrite <- E, getitem_last. reflexivity.
Qed.

(** X14.  [get_last_move] never raises: it is [None] on an empty history
    and the most recently appended move otherwise. *)
Theorem get_last_move_total (s : GameState) :
  (exists r, GameState.get_last_move s = Ok r) /\
  (GameState.get_last_move s = Ok None <-> GameState.move_history s = []) /\
  (forall h m,
     GameState.move_history s = h ++ [m] ->
     GameState.get_last_move s = Ok (Some m)).
Proof.
  assert (Hsnoc := get_last_move_snoc s).
  split; [|split; [|exact Hsnoc]].
  - destruct (GameState.move_history s) as [|m h] eqn:Hh using rev_ind.
    + unfold GameState.get_last_move. rewrite Hh. eauto.
    + rewrite (Hsnoc _ _ eq_refl). eauto.
  - split.
    + destruct (GameState.move_history s) as [|m h] eqn:Hh using rev_ind;
        [reflexivity|].
      rewrite (Hsnoc _ _ eq_refl). discriminate.
    + intros Hh. unfold GameState.get_last_move. now rewrite Hh.
Qed.

Lemma get_last_move_total_witness :
  GameState.move_history GameState.new = [] /\
  GameState.get_last_move GameState.new = Ok None.
Proof.
  split; [reflexivity|].
  apply (get_last_move_total GameState.new). reflexivity.
Defined.

(** X15.  Right after [s.add_move(m)], [get_last_move] returns [m]. *)
Theorem get_last_move_add_move (s : GameState) (m : Move) :
  exists s',
    GameState.after (GameState.add_move m) s = Some s' /\
    GameState.get_last_move s' = Ok (Some m).
Proof.
  eexists. split; [apply add_move_after|].
  eapply get_last_move_snoc. reflexivity.
Qed.

(** The fields a sequence of calls leaves. *)
Lemma steps_fields (ms : list Move) (s : GameState) :
  let s' := foldl Derived.step s ms in
  GameState.move_history s' = GameState.move_history s ++ ms /\
  GameState.captured_pieces s'
  = GameState.captured_pieces s ++ Derived.captures ms /\
  GameState.fullmove_number s'
  = GameState.fullmove_number s + Z.of_nat (Derived.black_moves ms) /\
  GameState.current_turn s'
  = (if Nat.even (length ms) then GameState.current_turn s
     else Spec.opposite (GameState.current_turn s)) /\
  GameState.status s' = GameState.status s /\
  GameState.castling_rights s' = GameState.castling_rights s /\
  GameState.en_passant_target s' = GameState.en_passant_target s /\
  GameState.check_positions s' = GameState.check_positions s /\
  GameState.pieces s' = GameState.pieces s.
Proof.
  induction ms as [|m ms IH] using rev_ind; cbn zeta.
  - cbn. rewrite !app_nil_r, Z.add_0_r. repeat split.
  - cbn zeta in IH.
    destruct IH as (Hh & Hc & Hf & Ht & Hst & Hcr & Hep & Hck & Hp).
    rewrite steps_snoc, step_unfold. cbn.
    rewrite Hh, Hc, Hf, Ht, Hst, Hcr, Hep, Hck, Hp.
    unfold Derived.captures, Derived.black_moves.
    rewrite omap_app, List.filter_app, !length_app, <- !app_assoc. cbn.
    split; [reflexivity|]. split.
    { destruct (Move.captured_piece m); reflexivity. }
    split.
    { case_decide as Hb.
      - rewrite bool_decide_eq_true_2 by exact Hb. cbn. lia.
      - rewrite bool_decide_eq_false_2 by exact Hb. cbn. lia. }
    split; [|repeat split].
    replace (length ms + 1)%nat with (S (length ms)) by lia.
    rewrite Nat.even_succ, <- Nat.negb_even.
    destruct (Nat.even (length ms)), (GameState.current_turn s);
      reflexivity.
Qed.

(** X16.  A sequence of [add_move] calls never raises; the history it
    leaves is the old history followed by the moves in call order, so
    nothing recorded earlier is dropped or reordered. *)
Theorem add_moves_history (s : GameState) (ms : list Move) :
  exists s',
    GameState.add_moves ms s = Ok (tt, s') /\
    GameState.move_history s' = GameState.move_history s ++ ms /\
    length (GameState.move_history s')
    = (length (GameState.move_history s) + length ms)%nat.
Proof.
  eexists. split; [apply add_moves_run|].
  destruct (steps_fields ms s) as (Hh & _). rewrite Hh, length_app.
  split; reflexivity.
Qed.

(** X17.  After a sequence of [add_move] calls the colour to move is the
    one before when the number of calls is even and the other one when it
    is odd, whatever the colours of the moved pieces. *)
Theorem add_moves_turn (s : GameState) (ms : list Move) :
  exists s',
    GameState.after (GameState.add_moves ms) s = Some s' /\
    GameState.current_turn s'
    = if Nat.even (length ms) then GameState.current_turn s
      else Spec.opposite (GameState.current_turn s).
Proof.
  eexists. split; [apply add_moves_after|].
  apply (steps_fields ms s).
Qed.

(** X18.  After a sequence of [add_move] calls the fullmove number has
    grown by the number of moves of a black piece among them. *)
Theorem add_moves_fullmove_number (s : GameState) (ms : list Move) :
  exists s',
    GameState.after (GameState.add_moves ms) s = Some s' /\
    GameState.fullmove_number s'
    = GameState.fullmove_number s + Z.of_nat (Derived.black_moves ms).
Proof.
  eexists. split; [apply add_moves_after|].
  apply (steps_fields ms s).
Qed.

(** X19.  After a sequence of [add_move] calls [captured_pieces] is the
    old list followed by the captured pieces of the moves that carry one,
    in call order. *)
Theorem add_moves_captured_pieces (s : GameState) (ms : list Move) :
  exists s',
    GameState.after (GameState.add_moves ms) s = Some s' /\
    GameState.captured_pieces s'
    = GameState.captured_pieces s ++ Derived.captures ms.
Proof.
  eexists. split; [apply add_moves_after|].
  apply (steps_fields ms s).
Qed.

(** X20.  No sequence of [add_move] calls changes what the queries
    [is_in_check] and [can_castle] answer. *)
Theorem add_moves_queries (s : GameState) (ms : list Move) :
  exists s',
    GameState.after (GameState.add_moves ms) s = Some s' /\
    GameState.is_in_check s' = GameState.is_in_check s /\
    (forall side, GameState.can_castle s' side = GameState.can_castle s side).
Proof.
  eexists. split; [apply add_moves_after|].
  destruct (steps_fields ms s) as (_ & _ & _ & _ & _ & Hcr & _ & Hck & _).
  unfold GameState.is_in_check, GameState.can_castle.
  rewrite Hcr, Hck. split; [reflexivity | intros side; reflexivity].
Qed.

Lemma step_halfmove_clock (s : GameState) (m : Move) :
  GameState.halfmove_clock (Derived.step s m)
  = if decide (Derived.resets m) then 0 else GameState.halfmove_clock s + 1.
Proof. rewrite step_unfold. reflexivity. Qed.

Lemma steps_quiet (quiet : list Move) (s : GameState) :
  Forall (fun m => ~ Derived.resets m) quiet ->
  GameState.halfmove_clock (foldl Derived.step s quiet)
  = GameState.halfmove_clock s + Z.of_nat (length quiet).
Proof.
  intros Hq. revert s.
  induction Hq as [|m quiet Hm _ IH]; intros s; cbn [foldl length].
  - lia.
  - rewrite IH, step_halfmove_clock.
    destruct (decide (Derived.resets m)); [contradiction | lia].
Qed.

(** X21.  The halfmove clock counts the calls since the last resetting
    move: a run of moves that are neither pawn moves nor captures adds its
    length to the clock, and after a pawn move or capture followed by such
    a run the clock is the length of the run, whatever came before. *)
Theorem add_moves_halfmove_clock (s : GameState) (pre quiet : list Move)
    (r : Move) :
  Forall (fun m => ~ Derived.resets m) quiet ->
  (exists s',
     GameState.after (GameState.add_moves quiet) s = Some s' /\
     GameState.halfmove_clock s'
     = GameState.halfmove_clock s + Z.of_nat (length quiet)) /\
  (Derived.resets r ->
   exists s',
     GameState.after (GameState.add_moves (pre ++ r :: quiet)) s = Some s' /\
     GameState.halfmove_clock s' = Z.of_nat (length quiet)).
Proof.
  intros Hq. split.
  - eexists. split; [apply add_moves_after | now apply steps_quiet].
  - intros Hr. eexists. split; [apply add_moves_after|].
    rewrite foldl_app. cbn [foldl].
    rewrite (steps_quiet quiet _ Hq), step_halfmove_clock.
    destruct (decide (Derived.resets r)); [lia | contradiction].
Qed.

Lemma add_moves_halfmove_clock_witness :
  Forall (fun m => ~ Derived.resets m) [Tests.knight_move] /\
  Derived.resets Tests.pawn_move /\
  exists s',
    GameState.after
      (GameState.add_moves
         ([Tests.knight_move] ++ Tests.pawn_move :: [Tests.knight_move]))
      GameState.new = Some s' /\
    GameState.halfmove_clock s' = Z.of_nat (length [Tests.knight_move]).
Proof.
  assert (Hq : Forall (fun m => ~ Derived.resets m) [Tests.knight_move]).
  { constructor; [|constructor].
    intros [H|[c H]]; discriminate H. }
  assert (Hr : Derived.resets Tests.pawn_move) by (left; reflexivity).
  split; [exact Hq|]. split; [exact Hr|].
  apply (add_moves_halfmove_clock GameState.new [Tests.knight_move]
           [Tests.knight_move] Tests.pawn_move Hq).
  exact Hr.
Defined.

(** X22.  From a state with a clock that is not negative, a sequence of
    [add_move] calls keeps the clock from going negative; the fullmove
    number never decreases; and the clock, the fullmove number and the
    number of captured pieces each grow by at most one per call. *)
Theorem add_moves_bounds (s : GameState) (ms : list Move) :
  0 <= GameState.halfmove_clock s ->
  exists s',
    GameState.after (GameState.add_moves ms) s = Some s' /\
    0 <= GameState.halfmove_clock s'
      <= GameState.halfmove_clock s + Z.of_nat (length ms) /\
    GameState.fullmove_number s <= GameState.fullmove_number s'
      <= GameState.fullmove_number s + Z.of_nat (length ms) /\
    (length (GameState.captured_pieces s)
     <= length (GameState.captured_pieces s')
     <= length (GameState.captured_pieces s) + length ms)%nat.
Proof.
  intros Hs. eexists. split; [apply add_moves_after|].
  induction ms as [|m ms IH] using rev_ind.
  - cbn. lia.
  - destruct IH as (Hh & Hf & Hc).
    rewrite steps_snoc, step_unfold, length_app. cbn.
    rewrite length_app.
    split; [|split].
    + case_decide; lia.
    + case_decide; lia.
    + destruct (Move.captured_piece m); cbn; lia.
Qed.

Lemma add_moves_bounds_witness :
  0 <= GameState.halfmove_clock GameState.new /\
  exists s',
    GameState.after
      (GameState.add_moves
         [Tests.pawn_move; Tests.knight_move; Tests.capture_move])
      GameState.new = Some s' /\
    0 <= GameState.halfmove_clock s' <= 0 + 3 /\
    1 <= GameState.fullmove_number s' <= 1 + 3 /\
    (0 <= length (GameState.captured_pieces s') <= 0 + 3)%nat.
Proof.
  split; [reflexivity|].
  apply (add_moves_bounds GameState.new
           [Tests.pawn_move; Tests.knight_move; Tests.capture_move]).
  reflexivity.
Defined.

Lemma black_moves_in_turn (c : PieceColor) (ms : list Move) :
  Derived.in_turn c ms ->
  Z.of_nat (Derived.black_moves ms)
  = (Z.of_nat (length ms) + (if decide (c = BLACK) then 1 else 0)) / 2.
Proof.
  revert c. induction ms as [|m ms IH]; intros c.
  - intros _. destruct c; reflexivity.
  - intros [Hm Hms]. specialize (IH _ Hms).
    unfold Derived.black_moves in *. cbn [List.filter length].
    rewrite Hm. destruct c; cbn [Spec.opposite] in IH.
    + rewrite bool_decide_eq_false_2 by discriminate.
      rewrite IH, Nat2Z.inj_succ. repeat case_decide; try congruence.
      Z.div_mod_to_equations. lia.
    + rewrite bool_decide_eq_true_2 by reflexivity. cbn [length].
      rewrite !Nat2Z.inj_succ, IH. repeat case_decide; try congruence.
      Z.div_mod_to_equations. lia.
Qed.

(** X23.  When the moved pieces alternate in colour, starting with the
    colour to move, the fullmove number grows by one for every two calls:
    by half the number of calls, rounded down when White is to move first
    and up when Black is. *)
Theorem add_moves_in_turn (s : GameState) (ms : list Move) :
  Derived.in_turn (GameState.current_turn s) ms ->
  exists s',
    GameState.after (GameState.add_moves ms) s = Some s' /\
    GameState.fullmove_number s'
    = GameState.fullmove_number s
      + (Z.of_nat (length ms)
         + (if decide (GameState.current_turn s = BLACK) then 1 else 0)) / 2.
Proof.
  intros Hturn. eexists. split; [apply add_moves_after|].
  destruct (steps_fields ms s) as (_ & _ & -> & _).
  now rewrite (black_moves_in_turn _ _ Hturn).
Qed.

Lemma add_moves_in_turn_witness :
  Derived.in_turn (GameState.current_turn GameState.new)
    [Tests.pawn_move; Tests.knight_move; Tests.capture_move] /\
  exists s',
    GameState.after
      (GameState.add_moves
         [Tests.pawn_move; Tests.knight_move; Tests.capture_move])
      GameState.new = Some s' /\
    GameState.fullmove_number s' = 2.
Proof.
  assert (H : Derived.in_turn (GameState.current_turn GameState.new)
                [Tests.pawn_move; Tests.knight_move; Tests.capture_move])
    by (repeat split).
  split; [exact H|].
  apply (add_moves_in_turn GameState.new _ H).
Defined.
